(** * Overlay positioning and the ActionMenu controller of ov-igloo-ui

    Shallow embedding of
    - [GetVisiblePosition] and its [hasPlaceAt*] helpers
      (src/.storybook/useBrand.js, lines 33-132), and
    - the [ActionMenu] component's state logic: [toggleMenu],
      [closeMenuOnSelect], [selectOption], [hoverOption], [focusOption]
      and [handleOnKeyDown] (src/unnamed/part_000), with the trigger's
      [onClick] and the dropdown's [onClose], and
    - from src/.storybook/useBrand.js as well, the [useBrand] decorator's
      effect and the [TextEditor] component's focus, anchor and render
      conditions. *)

From Stdlib Require Import ZArith Bool List String Lia.
Import ListNotations.
Open Scope string_scope.
Open Scope list_scope.
Open Scope Z_scope.

(* ================================================================== *)
(** ** Position resolver (useBrand.js) *)

Module Positioning.

(** The fields of a [DOMRect] read by the resolver (pixels as integers). *)
Record DOMRect := mkRect {
  top : Z; right : Z; bottom : Z; left : Z; width : Z; height : Z
}.

(** The global state read by [hasPlaceAtBottom] / [hasPlaceAtRight]:
    [window.innerHeight], [window.innerWidth] and
    [document.documentElement.clientHeight / clientWidth]. *)
Record Window := mkWindow {
  innerHeight : Z; innerWidth : Z;
  docClientHeight : Z; docClientWidth : Z
}.

(** [a || b] on numbers: [a] unless it is falsy (0). *)
Definition num_or (a b : Z) : Z := if Z.eqb a 0 then b else a.

Definition clientHeight (w : Window) : Z := num_or (innerHeight w) (docClientHeight w).
Definition clientWidth (w : Window) : Z := num_or (innerWidth w) (docClientWidth w).

(** [Position] is the string union ['top' | 'right' | 'bottom' | 'left'];
    it is kept as a string so that the [default] branch is reachable. *)
Definition Position := string.

Definition hasPlaceAtTop (tooltipDomRect parentDomRect : DOMRect) : bool :=
  height tooltipDomRect <=? top parentDomRect.

Definition hasPlaceAtLeft (tooltipDomRect parentDomRect : DOMRect) : bool :=
  width tooltipDomRect <=? left parentDomRect.

Definition hasPlaceAtBottom (win : Window) (tooltipDomRect parentDomRect : DOMRect) : bool :=
  height tooltipDomRect <=? clientHeight win - bottom parentDomRect.

Definition hasPlaceAtRight (win : Window) (tooltipDomRect parentDomRect : DOMRect) : bool :=
  width tooltipDomRect <=? clientWidth win - right parentDomRect.

Definition isNotFittingOnTopButCanOnBottom win t p : bool :=
  negb (hasPlaceAtTop t p) && hasPlaceAtBottom win t p.

Definition isNotFittingOnRightButCanOnLeft win t p : bool :=
  negb (hasPlaceAtRight win t p) && hasPlaceAtLeft t p.

Definition isNotFittingOnBottomButCanOnTop win t p : bool :=
  negb (hasPlaceAtBottom win t p) && hasPlaceAtTop t p.

Definition isNotFittingOnLeftButCanOnRight win t p : bool :=
  negb (hasPlaceAtLeft t p) && hasPlaceAtRight win t p.

(** [GetVisiblePosition]; the window is the global environment it reads. *)
Definition GetVisiblePosition (win : Window)
    (tooltipDomRect parentDomRect : DOMRect) (position : Position) : Position :=
  if String.eqb position "top" then
    if isNotFittingOnTopButCanOnBottom win tooltipDomRect parentDomRect
    then "bottom" else "top"
  else if String.eqb position "right" then
    if isNotFittingOnRightButCanOnLeft win tooltipDomRect parentDomRect
    then "left" else "right"
  else if String.eqb position "bottom" then
    if isNotFittingOnBottomButCanOnTop win tooltipDomRect parentDomRect
    then "top" else "bottom"
  else if String.eqb position "left" then
    if isNotFittingOnLeftButCanOnRight win tooltipDomRect parentDomRect
    then "right" else "left"
  else "top".

(** *** Reference definition, written from the specification's table *)

Record Viewport := mkViewport { vp_width : Z; vp_height : Z }.

Definition viewport_of (w : Window) : Viewport :=
  mkViewport (clientWidth w) (clientHeight w).

Inductive Side := STop | SRight | SBottom | SLeft.

Definition side_of_string (s : string) : option Side :=
  if String.eqb s "top" then Some STop
  else if String.eqb s "right" then Some SRight
  else if String.eqb s "bottom" then Some SBottom
  else if String.eqb s "left" then Some SLeft
  else None.

Definition side_to_string (s : Side) : string :=
  match s with
  | STop => "top" | SRight => "right" | SBottom => "bottom" | SLeft => "left"
  end.

Definition opposite (s : Side) : Side :=
  match s with
  | STop => SBottom | SBottom => STop | SLeft => SRight | SRight => SLeft
  end.

Definition fits (overlay anchor : DOMRect) (vp : Viewport) (s : Side) : Prop :=
  match s with
  | STop => top anchor >= height overlay
  | SBottom => height overlay <= vp_height vp - bottom anchor
  | SLeft => left anchor >= width overlay
  | SRight => width overlay <= vp_width vp - right anchor
  end.

Definition fitsb (overlay anchor : DOMRect) (vp : Viewport) (s : Side) : bool :=
  match s with
  | STop => height overlay <=? top anchor
  | SBottom => height overlay <=? vp_height vp - bottom anchor
  | SLeft => width overlay <=? left anchor
  | SRight => width overlay <=? vp_width vp - right anchor
  end.

Definition resolveSide_spec (overlay anchor : DOMRect) (vp : Viewport)
    (preferred : string) : string :=
  match side_of_string preferred with
  | None => "top"
  | Some s =>
      if negb (fitsb overlay anchor vp s) && fitsb overlay anchor vp (opposite s)
      then side_to_string (opposite s) else side_to_string s
  end.

End Positioning.

(* ================================================================== *)
(** ** ActionMenu controller (src/unnamed/part_000) *)

Module ActionMenu.

(** An [ActionMenuOption]: a list [Option] without its [type]. *)
Record ActionMenuOption := mkAMOption {
  am_value : string; am_label : string; am_disabled : option bool
}.

(** An [OptionType] of [@igloo-ui/list]: the fields read here. *)
Record OptionType := mkOption {
  value : string; label : string; disabled : option bool; otype : string
}.

(** [closeOnSelect?: boolean | ((option: OptionType) => boolean)]. *)
Inductive CloseOnSelect :=
  | COBool (b : bool)
  | COFun (f : OptionType -> bool).

(** The props read by the logic; an optional callback is modelled by
    whether it is set (its invocation is recorded in the trace). *)
Record Props := mkProps {
  closeOnSelect : CloseOnSelect;
  isOpen : bool;
  onMenuClose : bool;
  onMenuOpen : bool;
  onOptionSelect : bool;
  options : list ActionMenuOption
}.

(** The destructuring defaults [closeOnSelect = true], [isOpen = false]. *)
Definition defaultCloseOnSelect : CloseOnSelect := COBool true.
Definition defaultIsOpen : bool := false.

(** The observable calls, in order: entries into [toggleMenu] and
    [selectOption], and invocations of the user callbacks. *)
Inductive Event :=
  | EToggleMenu (open : bool)
  | ESelectOption (o : OptionType)
  | EMenuOpen
  | EMenuClose
  | EOptionSelect (o : OptionType).

(** The component state ([showMenu], [currentFocusedOption]) and the
    trace of calls. *)
Record World := mkWorld {
  showMenu : bool;
  currentFocusedOption : option OptionType;
  trace : list Event
}.

Definition initWorld (p : Props) : World := mkWorld (isOpen p) None [].

Definition setShowMenu (b : bool) (w : World) : World :=
  mkWorld b (currentFocusedOption w) (trace w).

Definition setCurrentFocusedOption (o : option OptionType) (w : World) : World :=
  mkWorld (showMenu w) o (trace w).

Definition emit (e : Event) (w : World) : World :=
  mkWorld (showMenu w) (currentFocusedOption w) (trace w ++ [e]).

(** Sequencing of actions. *)
Definition andThen (a b : World -> World) : World -> World := fun w => b (a w).
Infix ">>>" := andThen (at level 61, left associativity).

Definition skip : World -> World := fun w => w.

Definition actionMenuOptions (p : Props) : list OptionType :=
  map (fun o => mkOption (am_value o) (am_label o) (am_disabled o) "list") (options p).

Definition isOptionDisabled (option : option OptionType) : bool :=
  match option with
  | Some o => if String.eqb (otype o) "list"
              then match disabled o with Some b => b | None => false end
              else false
  | None => false
  end.

Definition toggleMenu (p : Props) (open : bool) : World -> World :=
  emit (EToggleMenu open) >>>
  setShowMenu open >>>
  (if negb open then (if onMenuClose p then emit EMenuClose else skip)
   else if onMenuOpen p then emit EMenuOpen else skip).

Definition closeMenuOnSelect (p : Props) (option : OptionType) : bool :=
  match closeOnSelect p with
  | COFun f => f option
  | COBool b => b
  end.

Definition selectOption (p : Props) (option : OptionType) : World -> World :=
  emit (ESelectOption option) >>>
  (if onOptionSelect p then emit (EOptionSelect option) else skip) >>>
  (if closeMenuOnSelect p option then toggleMenu p false else skip).

Definition hoverOption (option : OptionType) : World -> World :=
  setCurrentFocusedOption (Some option).

Inductive FocusDirection := First | Last | Up | Down.

(** [Array.prototype.findIndex]. *)
Fixpoint findIndex {A} (f : A -> bool) (l : list A) : Z :=
  match l with
  | [] => -1
  | x :: r => if f x then 0 else
              let i := findIndex f r in if i <? 0 then -1 else i + 1
  end.

(** [arr[i]]: [undefined] ([None]) out of range. *)
Definition at_index {A} (l : list A) (i : Z) : option A :=
  if i <? 0 then None else nth_error l (Z.to_nat i).

Definition enabledOptions (p : Props) : list OptionType :=
  filter (fun option => negb (isOptionDisabled (Some option))) (actionMenuOptions p).

(** [focusOption]; [focused] is the render-time [currentFocusedOption]. *)
Definition focusOption (p : Props) (focused : option OptionType)
    (direction : FocusDirection) : World -> World :=
  let enabled := enabledOptions p in
  let len := Z.of_nat (List.length enabled) in
  if Nat.eqb (List.length enabled) 0 then skip else
  let currentFocusedIndex :=
    match focused with
    | Some cur => findIndex (fun e => String.eqb (value e) (value cur)) enabled
    | None => -1
    end in
  match direction with
  | Up => setCurrentFocusedOption
            (at_index enabled (if 0 <? currentFocusedIndex
                               then currentFocusedIndex - 1 else len - 1))
  | Down => setCurrentFocusedOption
              (at_index enabled (Z.rem (currentFocusedIndex + 1) len))
  | Last => setCurrentFocusedOption (at_index enabled (len - 1))
  | First => setCurrentFocusedOption (at_index enabled 0)
  end.

(** The part of a [KeyboardEvent] the handler reads and writes. *)
Record KeyboardEvent := mkKeyEvent {
  key : string; defaultPrevented : bool; propagationStopped : bool
}.

Definition consume (e : KeyboardEvent) : KeyboardEvent :=
  mkKeyEvent (key e) true true.

(** The [Keys] enum. *)
Definition K_Enter := "Enter".
Definition K_Space := " ".
Definition K_ArrowDown := "ArrowDown".
Definition K_ArrowUp := "ArrowUp".
Definition K_Escape := "Escape".
Definition K_Tab := "Tab".
Definition K_Home := "Home".
Definition K_End := "End".

(** [handleOnKeyDown]: the handler closes over the render-time values of
    [showMenu] and [currentFocusedOption]; its state updates are applied
    in order (the last write wins) and never re-read inside the handler. *)
Definition handleOnKeyDown (p : Props) (ev : KeyboardEvent) (w : World)
    : KeyboardEvent * World :=
  let show := showMenu w in
  let focused := currentFocusedOption w in
  let k := key ev in
  if String.eqb k K_Escape then
    (ev, (if show then toggleMenu p show else skip) w)
  else if String.eqb k K_Enter then
    (consume ev,
     ((match focused with Some o => selectOption p o | None => skip end) >>>
      (if (match focused with None => true | Some _ => false end && show) || negb show
       then toggleMenu p (negb show) else skip)) w)
  else if String.eqb k K_Space then
    (ev, (if negb show then toggleMenu p true else skip) w)
  else if String.eqb k K_ArrowUp then
    (consume ev, focusOption p focused Up w)
  else if String.eqb k K_ArrowDown then
    (consume ev, focusOption p focused Down w)
  else if String.eqb k K_Home then
    (consume ev, focusOption p focused First w)
  else if String.eqb k K_End then
    (consume ev, focusOption p focused Last w)
  else if String.eqb k K_Tab then
    (ev, (if show then toggleMenu p show else skip) w)
  else (ev, w).

End ActionMenu.

(* ================================================================== *)
(** ** The ActionMenu's other handlers (src/unnamed/part_000) *)

Module ActionMenuHandlers.
Import ActionMenu.

(** [renderReference]'s [onClick: () => toggleMenu(!showMenu)]. *)
Definition onTriggerClick (p : Props) (w : World) : World :=
  toggleMenu p (negb (showMenu w)) w.

(** [Dropdown]'s [onClose={() => toggleMenu(false)}]. *)
Definition onDropdownClose (p : Props) (w : World) : World :=
  toggleMenu p false w.

(** The keys [handleOnKeyDown] has a case for. *)
Definition handledKeys : list string :=
  [K_Escape; K_Enter; K_Space; K_ArrowUp; K_ArrowDown; K_Home; K_End; K_Tab].

End ActionMenuHandlers.

(* ================================================================== *)
(** ** The [useBrand] story decorator (src/.storybook/useBrand.js, 3-30) *)

Module Brand.

Definition components : list string :=
  ["ActionMenu"; "Alert"; "Avatar"; "Button"; "Color"; "Hyperlink";
   "IconButton"; "List"; "Tag"; "Tooltip"; "VisualIdentifier"].

(** The [data-brand] attribute of [document.documentElement]. *)
Definition Attr := option string.

(** The effect body: [setAttribute('data-brand', brand)] when the
    component is listed ([Array.prototype.includes]), else
    [removeAttribute('data-brand')]. *)
Definition brandEffect (displayName brand : string) (_ : Attr) : Attr :=
  if existsb (String.eqb displayName) components then Some brand else None.

(** One hook instance across renders: [useEffect(..., [brand])] runs the
    effect after the first render and after every render whose [brand]
    differs from the previous render's. [prevBrand] is the dependency
    recorded at the last render ([None] before the first one). *)
Record HookState := mkHook { prevBrand : option string; attr : Attr }.

Definition renderUseBrand (displayName brand : string) (h : HookState) : HookState :=
  match prevBrand h with
  | Some b => if String.eqb b brand then h
              else mkHook (Some brand) (brandEffect displayName brand (attr h))
  | None => mkHook (Some brand) (brandEffect displayName brand (attr h))
  end.

(** A sequence of renders [(displayName, brand)], oldest first. *)
Definition renderAll (rs : list (string * string)) (h : HookState) : HookState :=
  fold_left (fun h '(d, b) => renderUseBrand d b h) rs h.

End Brand.

(* ================================================================== *)
(** ** The [TextEditor] component (src/.storybook/useBrand.js, 133-399) *)

Module TextEditor.

(** The props the component's logic reads ([primaryBtn], [onFocus] and
    [onBlur] by presence; [maxLength] as a number). *)
Record TEProps := mkTEProps {
  autoFocus : option bool;
  disabled : option bool;
  isClearable : option bool;
  isPrivate : option bool;
  maxLength : option Z;
  primaryBtn : bool;
  showToolbar : option bool;
  onFocus : bool;
  onBlur : bool
}.

(** Destructuring with a default: [x = d] takes [d] for [undefined]. *)
Definition dflt (d : bool) (x : option bool) : bool :=
  match x with Some b => b | None => d end.

(** JavaScript truthiness of [boolean | undefined] and [number | undefined]. *)
Definition truthy_b (x : option bool) : bool := dflt false x.
Definition truthy_n (x : option Z) : bool :=
  match x with Some n => negb (Z.eqb n 0) | None => false end.

(** [hasFocus] and [floatingAnchorElem] (an element by identifier). *)
Record TEState := mkTEState { hasFocus : bool; floatingAnchorElem : option nat }.

Inductive TECall := CFocus | CBlur.

Definition initTE (p : TEProps) : TEState :=
  mkTEState (dflt false (autoFocus p)) None.

Inductive TEInput :=
  | IFocus                    (* OnFocusPlugin calls handleOnFocus *)
  | IBlur                     (* OnFocusPlugin calls handleOnBlur *)
  | IRef (e : option nat).    (* React calls onRef with the element or null *)

(** [handleOnFocus], [handleOnBlur] and [onRef]; the forwarded
    [onFocus?.(editor)] / [onBlur?.(editor)] calls are returned. *)
Definition stepTE (p : TEProps) (i : TEInput) (s : TEState) : TEState * list TECall :=
  match i with
  | IFocus => (mkTEState true (floatingAnchorElem s), if onFocus p then [CFocus] else [])
  | IBlur => (mkTEState false (floatingAnchorElem s), if onBlur p then [CBlur] else [])
  | IRef None => (s, [])
  | IRef (Some e) => (mkTEState (hasFocus s) (Some e), [])
  end.

Fixpoint runTE (p : TEProps) (is : list TEInput) (s : TEState) : TEState * list TECall :=
  match is with
  | [] => (s, [])
  | i :: r => let '(s1, c1) := stepTE p i s in
              let '(s2, c2) := runTE p r s1 in (s2, c1 ++ c2)
  end.

(** The rendered children that depend on props and state, in JSX order;
    [RText] is what React shows for a rendered number ([{0 && ...}]). *)
Inductive RNode :=
  | RPlugin (name : string)
  | RText (t : string)
  | RPrivateNotice
  | RPrimaryBtn.

Definition showFooter (p : TEProps) : bool :=
  truthy_n (maxLength p) || truthy_b (isPrivate p) || primaryBtn p.

(** The footer's children: [{isPrivate && ...}], [{maxLength && ...}]
    (a falsy number is itself rendered) and [{primaryBtn && ...}]. *)
Definition footerChildren (p : TEProps) : list RNode :=
  (if truthy_b (isPrivate p) then [RPrivateNotice] else []) ++
  (match maxLength p with
   | Some n => if Z.eqb n 0 then [RText "0"]
               else [RPlugin "CharacterLimitPlugin"; RPlugin "MaxLengthPlugin"]
   | None => []
   end) ++
  (if primaryBtn p then [RPrimaryBtn] else []).

Definition renderTE (p : TEProps) (s : TEState) : list RNode :=
  (if dflt true (showToolbar p) then [RPlugin "ToolbarPlugin"] else []) ++
  [RPlugin "RichTextPlugin"; RPlugin "HistoryPlugin"] ++
  (if dflt false (autoFocus p) then [RPlugin "AutoFocusPlugin"] else []) ++
  [RPlugin "DisablePlugin"; RPlugin "OnChangePlugin"; RPlugin "OnFocusPlugin";
   RPlugin "ListPlugin"; RPlugin "LinkPlugin"] ++
  (match floatingAnchorElem s with
   | Some _ => [RPlugin "FloatingLinkEditorPlugin"] | None => [] end) ++
  (if dflt true (isClearable p) then [RPlugin "ClearEditorPlugin"] else []) ++
  [RPlugin "MarkdownShortcutPlugin"; RPlugin "CodeHighlightPlugin"] ++
  (if showFooter p then footerChildren p else []).

(** [editable: !disabled]. *)
Definition editable (p : TEProps) : bool := negb (truthy_b (disabled p)).

End TextEditor.

(* ================================================================== *)
(** ** Properties of the position resolver *)

Module PositioningFacts.
Import Positioning.

Example flip_example :
  GetVisiblePosition (mkWindow 800 1200 0 0)
    (mkRect 0 0 0 0 50 100) (mkRect 10 0 50 0 0 40) "top" = "bottom".
Proof. reflexivity. Qed.

Example no_flip_example :
  GetVisiblePosition (mkWindow 800 1200 0 0)
    (mkRect 0 0 0 0 50 100) (mkRect 150 0 190 0 0 40) "top" = "top".
Proof. reflexivity. Qed.

Example neither_fits_example :
  GetVisiblePosition (mkWindow 800 1200 0 0)
    (mkRect 0 0 0 0 50 100) (mkRect 5 0 795 0 0 790) "top" = "top".
Proof. reflexivity. Qed.

Lemma fitsb_fits t a vp s : fitsb t a vp s = true <-> fits t a vp s.
Proof. destruct s; simpl; rewrite Z.leb_le; lia. Qed.

Lemma GetVisiblePosition_eq_spec win t a p :
  GetVisiblePosition win t a p = resolveSide_spec t a (viewport_of win) p.
Proof.
  unfold GetVisiblePosition, resolveSide_spec, side_of_string.
  destruct (String.eqb p "top"); [reflexivity|].
  destruct (String.eqb p "right"); [reflexivity|].
  destruct (String.eqb p "bottom"); [reflexivity|].
  destruct (String.eqb p "left"); reflexivity.
Qed.

(** C1: [GetVisiblePosition] coincides with the specification's
    [resolveSide] (fits-top iff [anchor.top >= overlay.height], and the
    three others), viewport = [innerWidth || clientWidth] by
    [innerHeight || clientHeight]: for a recognised preferred side the
    opposite side is returned exactly when the preferred side does not
    fit and its opposite fits, otherwise the preferred side unchanged
    (also when neither fits); any unrecognised value gives ["top"]. *)
Theorem GetVisiblePosition_resolveSide win t a p :
  GetVisiblePosition win t a p = resolveSide_spec t a (viewport_of win) p /\
  (side_of_string p = None -> GetVisiblePosition win t a p = "top") /\
  (forall s, side_of_string p = Some s ->
     ((~ fits t a (viewport_of win) s /\ fits t a (viewport_of win) (opposite s)) ->
        GetVisiblePosition win t a p = side_to_string (opposite s)) /\
     (~ (~ fits t a (viewport_of win) s /\ fits t a (viewport_of win) (opposite s)) ->
        GetVisiblePosition win t a p = side_to_string s)).
Proof.
  rewrite GetVisiblePosition_eq_spec. unfold resolveSide_spec.
  set (vp := viewport_of win).
  split; [reflexivity|]. split.
  - intros H. rewrite H. reflexivity.
  - intros s Hs. rewrite Hs.
    pose proof (fitsb_fits t a vp s) as F1.
    pose proof (fitsb_fits t a vp (opposite s)) as F2.
    split.
    + intros [Hn Ho].
      destruct (fitsb t a vp s); [exfalso; apply Hn, F1; reflexivity|].
      destruct (fitsb t a vp (opposite s)); [reflexivity|].
      exfalso. apply F2 in Ho. discriminate.
    + intros Hn.
      destruct (fitsb t a vp s) eqn:E1; [reflexivity|].
      destruct (fitsb t a vp (opposite s)) eqn:E2; [|reflexivity].
      exfalso. apply Hn. split.
      * intros Hf. apply F1 in Hf. discriminate.
      * apply F2. reflexivity.
Qed.

(** C8: [GetVisiblePosition] depends on nothing but its documented
    inputs: two invocations whose overlay sizes, anchor edges, viewport
    sizes and preferred sides agree give the same side, whatever the
    other rectangle fields and whichever window fields produce the
    viewport. *)
Theorem GetVisiblePosition_deterministic win1 win2 t1 t2 a1 a2 p :
  viewport_of win1 = viewport_of win2 ->
  width t1 = width t2 -> height t1 = height t2 ->
  top a1 = top a2 -> right a1 = right a2 ->
  bottom a1 = bottom a2 -> left a1 = left a2 ->
  GetVisiblePosition win1 t1 a1 p = GetVisiblePosition win2 t2 a2 p.
Proof.
  intros Hv Hw Hh Ht Hr Hb Hl.
  rewrite !GetVisiblePosition_eq_spec, Hv.
  unfold resolveSide_spec.
  assert (Hf : forall s, fitsb t1 a1 (viewport_of win2) s =
                         fitsb t2 a2 (viewport_of win2) s)
    by (intros []; simpl; congruence).
  destruct (side_of_string p) as [s|]; [|reflexivity].
  rewrite !Hf. reflexivity.
Qed.

Lemma GetVisiblePosition_deterministic_witness :
  GetVisiblePosition (mkWindow 800 1200 0 0) (mkRect 0 0 0 0 50 100)
      (mkRect 10 0 50 0 0 40) "top" =
  GetVisiblePosition (mkWindow 0 0 800 1200) (mkRect 3 53 103 3 50 100)
      (mkRect 10 0 50 0 7 99) "top".
Proof.
  apply GetVisiblePosition_deterministic; reflexivity.
Defined.

End PositioningFacts.

(* ================================================================== *)
(** ** Properties of the ActionMenu controller *)

Module ActionMenuFacts.
Import ActionMenu.

(** *** Sample configuration *)

Definition opt (v : string) (d : bool) : ActionMenuOption := mkAMOption v v (Some d).
Definition lopt (v : string) (d : bool) : OptionType := mkOption v v (Some d) "list".

Definition sample_props (options : list ActionMenuOption) : Props :=
  mkProps defaultCloseOnSelect defaultIsOpen true true true options.

Definition abc := sample_props [opt "A" false; opt "X" true; opt "B" false; opt "C" false].

Example down_wraps :
  currentFocusedOption (focusOption abc (Some (lopt "C" false)) Down (initWorld abc))
  = Some (lopt "A" false).
Proof. reflexivity. Qed.

Example up_wraps :
  currentFocusedOption (focusOption abc (Some (lopt "A" false)) Up (initWorld abc))
  = Some (lopt "C" false).
Proof. reflexivity. Qed.

Example down_from_nothing :
  currentFocusedOption (focusOption abc None Down (initWorld abc)) = Some (lopt "A" false).
Proof. reflexivity. Qed.

Example all_disabled_noop :
  let p := sample_props [opt "A" true; opt "B" true] in
  focusOption p None Down (initWorld p) = initWorld p.
Proof. reflexivity. Qed.

(** *** Toggle and selection traces *)

Definition toggle_callbacks (p : Props) (open : bool) : list Event :=
  if open then (if onMenuOpen p then [EMenuOpen] else [])
  else (if onMenuClose p then [EMenuClose] else []).

Lemma toggleMenu_eq p open w :
  toggleMenu p open w =
  mkWorld open (currentFocusedOption w)
          (trace w ++ EToggleMenu open :: toggle_callbacks p open).
Proof.
  destruct w as [s f t]. unfold toggleMenu, toggle_callbacks, andThen.
  destruct open, (onMenuOpen p), (onMenuClose p);
    unfold emit, setShowMenu, skip; simpl; rewrite <- ?app_assoc; reflexivity.
Qed.

Definition select_events (p : Props) (o : OptionType) : list Event :=
  ESelectOption o :: (if onOptionSelect p then [EOptionSelect o] else []).

Lemma selectOption_eq p o w :
  selectOption p o w =
  if closeMenuOnSelect p o then
    mkWorld false (currentFocusedOption w)
      (trace w ++ select_events p o ++ EToggleMenu false :: toggle_callbacks p false)
  else mkWorld (showMenu w) (currentFocusedOption w) (trace w ++ select_events p o).
Proof.
  destruct w as [s f t]. unfold selectOption, select_events, andThen.
  destruct (onOptionSelect p), (closeMenuOnSelect p o);
    rewrite ?toggleMenu_eq; unfold emit, skip; simpl;
    rewrite <- ?app_assoc; reflexivity.
Qed.

(** *** Index lookup by value *)

(** The position of the first element of [l] whose [value] is [v]. *)
Fixpoint index_of_value (v : string) (l : list OptionType) : option nat :=
  match l with
  | [] => None
  | x :: r => if String.eqb (value x) v then Some O
              else option_map S (index_of_value v r)
  end.

Definition idx_Z (i : option nat) : Z :=
  match i with Some n => Z.of_nat n | None => -1 end.

Lemma findIndex_value v l :
  findIndex (fun e => String.eqb (value e) v) l = idx_Z (index_of_value v l).
Proof.
  induction l as [|x r IH]; simpl; [reflexivity|].
  destruct (String.eqb (value x) v); [reflexivity|].
  rewrite IH. destruct (index_of_value v r); simpl; [|reflexivity].
  destruct (Z.of_nat n <? 0) eqn:E; lia.
Qed.

Lemma index_of_value_lt v l n :
  index_of_value v l = Some n -> (n < List.length l)%nat.
Proof.
  revert n. induction l as [|x r IH]; simpl; intros n H; [discriminate|].
  destruct (String.eqb (value x) v).
  - injection H as <-. lia.
  - destruct (index_of_value v r) as [m|] eqn:E; simpl in H; [|discriminate].
    injection H as <-. specialize (IH m eq_refl). lia.
Qed.

Lemma index_of_value_spec v l n :
  index_of_value v l = Some n <->
  (exists e, nth_error l n = Some e /\ value e = v) /\
  (forall k e, (k < n)%nat -> nth_error l k = Some e -> value e <> v).
Proof.
  revert n. induction l as [|x r IH]; intros n; simpl.
  - split; [discriminate|]. intros [[e [He _]] _]. destruct n; discriminate.
  - destruct (String.eqb (value x) v) eqn:Ex.
    + apply String.eqb_eq in Ex. split.
      * intros H. injection H as <-. split; [exists x; auto|].
        intros k e Hk. lia.
      * intros [_ Hmin]. destruct n as [|n]; [reflexivity|].
        exfalso. apply (Hmin O x); [lia|reflexivity|exact Ex].
    + apply String.eqb_neq in Ex. destruct n as [|n].
      * split.
        -- destruct (index_of_value v r); discriminate.
        -- intros [[e [He Hv]] _]. simpl in He. injection He as <-. contradiction.
      * split.
        -- intros H.
           assert (E : index_of_value v r = Some n)
             by (destruct (index_of_value v r); simpl in H;
                 [injection H as ->; reflexivity|discriminate]).
           apply IH in E. destruct E as [He Hmin]. split; [exact He|].
           intros [|k] e Hk Hke; [simpl in Hke; injection Hke as <-; exact Ex|].
           apply (Hmin k); [lia|exact Hke].
        -- intros [He Hmin].
           assert (Hr : index_of_value v r = Some n).
           { apply IH. split; [exact He|].
             intros k e Hk Hke. apply (Hmin (S k)); [lia|exact Hke]. }
           rewrite Hr. reflexivity.
Qed.

(** *** The focus navigator, as the specification describes it *)

(** [moveFocus] from the specification, over the enabled subset: [idx]
    is the position of the current focus (looked up by its [value], the
    option's identity) or [-1]; [up] wraps to the last enabled option and
    [down] takes [(idx+1) mod count]; on an empty subset the focus is kept. *)
Definition moveFocus_spec (enabled : list OptionType) (focus : option OptionType)
    (d : FocusDirection) : option OptionType :=
  match enabled with
  | [] => focus
  | e0 :: _ =>
      let count := Z.of_nat (List.length enabled) in
      let idx := match focus with
                 | Some f => idx_Z (index_of_value (value f) enabled)
                 | None => -1
                 end in
      let pick i := Some (nth (Z.to_nat i) enabled e0) in
      match d with
      | First => pick 0
      | Last => pick (count - 1)
      | Up => if idx >? 0 then pick (idx - 1) else pick (count - 1)
      | Down => pick ((idx + 1) mod count)
      end
  end.

Lemma at_index_in {A} (l : list A) (d : A) i :
  0 <= i < Z.of_nat (List.length l) -> at_index l i = Some (nth (Z.to_nat i) l d).
Proof.
  intros H. unfold at_index. destruct (i <? 0) eqn:E; [lia|].
  apply nth_error_nth'. lia.
Qed.

Lemma idx_Z_bounds v l :
  -1 <= idx_Z (index_of_value v l) < Z.of_nat (List.length l).
Proof.
  destruct (index_of_value v l) as [n|] eqn:E; simpl.
  - apply index_of_value_lt in E. lia.
  - lia.
Qed.

(** The index [focusOption] computes for the render-time focus. *)
Definition focus_index (enabled : list OptionType) (focused : option OptionType) : Z :=
  match focused with
  | Some cur => findIndex (fun e => String.eqb (value e) (value cur)) enabled
  | None => -1
  end.

Lemma focus_index_eq enabled focused :
  focus_index enabled focused =
  match focused with
  | Some f => idx_Z (index_of_value (value f) enabled)
  | None => -1
  end.
Proof. destruct focused; simpl; [apply findIndex_value|reflexivity]. Qed.

Lemma focus_index_bounds enabled focused :
  -1 <= focus_index enabled focused < Z.of_nat (List.length enabled).
Proof.
  rewrite focus_index_eq. destruct focused; [apply idx_Z_bounds|].
  destruct enabled; simpl; lia.
Qed.

Lemma focusOption_eq p focused d w :
  focusOption p focused d w =
  match enabledOptions p with
  | [] => w
  | e0 :: r =>
      let enabled := e0 :: r in
      let len := Z.of_nat (List.length enabled) in
      let i := focus_index enabled focused in
      setCurrentFocusedOption
        (Some (nth (Z.to_nat (match d with
                              | Up => if 0 <? i then i - 1 else len - 1
                              | Down => (i + 1) mod len
                              | Last => len - 1
                              | First => 0
                              end)) enabled e0)) w
  end.
Proof.
  unfold focusOption. cbv zeta.
  destruct (enabledOptions p) as [|e0 r] eqn:El; [reflexivity|].
  simpl Nat.eqb. cbv iota.
  fold (focus_index (e0 :: r) focused).
  pose proof (focus_index_bounds (e0 :: r) focused) as B.
  set (i := focus_index (e0 :: r) focused) in *.
  set (len := Z.of_nat (List.length (e0 :: r))) in *.
  assert (Hlen : 0 < len) by (subst len; simpl; lia).
  destruct d.
  - rewrite (at_index_in _ e0); [reflexivity|]. lia.
  - rewrite (at_index_in _ e0); [reflexivity|]. lia.
  - rewrite (at_index_in _ e0); [reflexivity|].
    destruct (0 <? i) eqn:E; lia.
  - rewrite Z.rem_mod_nonneg by lia.
    rewrite (at_index_in _ e0); [reflexivity|].
    pose proof (Z.mod_pos_bound (i + 1) len Hlen). lia.
Qed.

(** C2: [focusOption] (the specification's [moveFocus]) leaves the
    focus unchanged when no option is enabled; otherwise [first] gives the
    first enabled option, [last] the last one, [up] the previous enabled
    option ([idx > 0]) or else the last one, and [down] the enabled option
    at [(idx + 1) mod count], [idx] being the index of the current focus
    in the enabled subset (or [-1]); so [down] with no focus gives the
    first enabled option. The rest of the state is untouched. *)
Theorem focusOption_moveFocus p d w :
  focusOption p (currentFocusedOption w) d w =
  mkWorld (showMenu w)
          (moveFocus_spec (enabledOptions p) (currentFocusedOption w) d)
          (trace w) /\
  (currentFocusedOption w = None -> d = Down ->
   currentFocusedOption (focusOption p (currentFocusedOption w) d w)
   = hd_error (enabledOptions p) \/ enabledOptions p = []).
Proof.
  assert (Main : focusOption p (currentFocusedOption w) d w =
    mkWorld (showMenu w)
            (moveFocus_spec (enabledOptions p) (currentFocusedOption w) d)
            (trace w)).
  { rewrite focusOption_eq. unfold moveFocus_spec.
    destruct (enabledOptions p) as [|e0 r]; [destruct w; reflexivity|].
    cbv zeta. rewrite <- focus_index_eq. unfold setCurrentFocusedOption.
    destruct d; try reflexivity.
    rewrite Z.gtb_ltb. destruct (0 <? _); reflexivity. }
  split; [exact Main|].
  intros Hf ->. rewrite Main. simpl. rewrite Hf. unfold moveFocus_spec.
  destruct (enabledOptions p) as [|e0 r]; [right; reflexivity|left].
  reflexivity.
Qed.

(** *** Toggle, selection and key dispatch *)

(** C4: every [toggleMenu open] sets [showMenu] to [open] and, with both
    callbacks set, fires exactly one callback chosen by [open] alone
    (close for [false], open for [true]), whatever the previous state;
    two successive [toggleMenu true] fire the open callback twice. *)
Theorem toggleMenu_level_triggered p w
    (Hopen : onMenuOpen p = true) (Hclose : onMenuClose p = true) :
  (forall open,
     toggleMenu p open w =
     mkWorld open (currentFocusedOption w)
       (trace w ++ [EToggleMenu open; if open then EMenuOpen else EMenuClose])) /\
  toggleMenu p true (toggleMenu p true w) =
  mkWorld true (currentFocusedOption w)
    (trace w ++ [EToggleMenu true; EMenuOpen; EToggleMenu true; EMenuOpen]).
Proof.
  split.
  - intros open. rewrite toggleMenu_eq. unfold toggle_callbacks.
    destruct open; rewrite ?Hopen, ?Hclose; reflexivity.
  - rewrite !toggleMenu_eq. unfold toggle_callbacks. rewrite Hopen. simpl.
    rewrite <- app_assoc. reflexivity.
Qed.

Lemma toggleMenu_level_triggered_witness :
  onMenuOpen abc = true /\ onMenuClose abc = true /\
  toggleMenu abc true (toggleMenu abc true (initWorld abc)) =
  mkWorld true None [EToggleMenu true; EMenuOpen; EToggleMenu true; EMenuOpen].
Proof.
  split; [reflexivity|]. split; [reflexivity|].
  apply (toggleMenu_level_triggered abc (initWorld abc)); reflexivity.
Defined.

(** C6: [selectOption option] first records the selection (and calls
    [onOptionSelect option]), then calls [toggleMenu false] exactly when
    the close-on-select policy holds for [option]: [true] (Always, the
    default) always, [false] (Never) never, a function [f] (Predicate)
    when [f option]. *)
Theorem selectOption_policy p o w :
  trace (selectOption p o w) =
  trace w ++ ESelectOption o :: (if onOptionSelect p then [EOptionSelect o] else []) ++
  (if closeMenuOnSelect p o then EToggleMenu false :: toggle_callbacks p false else []) /\
  showMenu (selectOption p o w) = (if closeMenuOnSelect p o then false else showMenu w) /\
  (closeOnSelect p = COBool true -> closeMenuOnSelect p o = true) /\
  (closeOnSelect p = COBool false -> closeMenuOnSelect p o = false) /\
  (forall f, closeOnSelect p = COFun f -> closeMenuOnSelect p o = f o) /\
  defaultCloseOnSelect = COBool true.
Proof.
  rewrite selectOption_eq. unfold select_events, closeMenuOnSelect.
  repeat split.
  - destruct (closeOnSelect p); [destruct b|destruct (f o)]; simpl;
      rewrite <- ?app_assoc, ?app_nil_r; reflexivity.
  - destruct (closeOnSelect p); [destruct b|destruct (f o)]; reflexivity.
  - intros ->. reflexivity.
  - intros ->. reflexivity.
  - intros f ->. reflexivity.
Qed.

Definition pred_props : Props :=
  mkProps (COFun (fun o => String.eqb (value o) "x")) true true true true
          [opt "x" false; opt "y" false].

Example select_y_stays_open :
  showMenu (selectOption pred_props (lopt "y" false) (initWorld pred_props)) = true.
Proof. reflexivity. Qed.

Example select_x_closes :
  showMenu (selectOption pred_props (lopt "x" false) (initWorld pred_props)) = false.
Proof. reflexivity. Qed.

(** The calls a [toggleMenu true] adds to the trace. *)
Definition reopen_events (p : Props) : list Event :=
  EToggleMenu true :: (if onMenuOpen p then [EMenuOpen] else []).

(** C3: [Escape] and [Tab] do nothing while the menu is closed; while it
    is open they call [toggleMenu showMenu], i.e. [toggleMenu true]: the
    open callback (if set) fires again, the close callback does not, and
    the menu stays open. *)
Theorem escape_tab_reopen p w dp ps :
  Forall (fun k =>
    let '(_, w') := handleOnKeyDown p (mkKeyEvent k dp ps) w in
    (showMenu w = false -> w' = w) /\
    (showMenu w = true ->
       w' = toggleMenu p true w /\ showMenu w' = true /\
       trace w' = trace w ++ reopen_events p /\
       ~ In EMenuClose (reopen_events p)))
  [K_Escape; K_Tab].
Proof.
  assert (Hno : ~ In EMenuClose (reopen_events p)).
  { unfold reopen_events. destruct (onMenuOpen p); simpl; intuition discriminate. }
  constructor; [|constructor; [|constructor]]; unfold handleOnKeyDown; simpl;
    destruct (showMenu w) eqn:Hs; split; intros H'; try discriminate;
    try reflexivity.
  all: rewrite toggleMenu_eq; simpl.
  all: split; [reflexivity|]; split; [reflexivity|]; split; [reflexivity|exact Hno].
Qed.

(** The calls a [toggleMenu open] adds to the trace. *)
Definition toggle_events (p : Props) (open : bool) : list Event :=
  EToggleMenu open :: toggle_callbacks p open.

(** The calls a [selectOption option] adds to the trace. *)
Definition select_trace (p : Props) (o : OptionType) : list Event :=
  select_events p o ++
  (if closeMenuOnSelect p o then toggle_events p false else []).

Lemma selectOption_trace p o w :
  trace (selectOption p o w) = trace w ++ select_trace p o /\
  currentFocusedOption (selectOption p o w) = currentFocusedOption w.
Proof.
  rewrite selectOption_eq. unfold select_trace, toggle_events.
  destruct (closeMenuOnSelect p o); simpl;
    rewrite ?app_nil_r, ?app_assoc; split; reflexivity.
Qed.

Lemma handle_enter p w dp ps :
  handleOnKeyDown p (mkKeyEvent K_Enter dp ps) w =
  (mkKeyEvent K_Enter true true,
   ((match currentFocusedOption w with
     | Some o => selectOption p o | None => skip end) >>>
    (if (match currentFocusedOption w with None => true | Some _ => false end
         && showMenu w) || negb (showMenu w)
     then toggleMenu p (negb (showMenu w)) else skip)) w).
Proof. reflexivity. Qed.

(** The four cases of [Enter]. *)
Lemma enter_cases p w dp ps :
  let '(ev', w') := handleOnKeyDown p (mkKeyEvent K_Enter dp ps) w in
  defaultPrevented ev' = true /\ propagationStopped ev' = true /\
  (currentFocusedOption w = None -> showMenu w = true ->
     w' = toggleMenu p false w /\ showMenu w' = false /\
     trace w' = trace w ++ toggle_events p false) /\
  (currentFocusedOption w = None -> showMenu w = false ->
     w' = toggleMenu p true w /\ showMenu w' = true /\
     trace w' = trace w ++ toggle_events p true) /\
  (forall o, currentFocusedOption w = Some o -> showMenu w = true ->
     w' = selectOption p o w /\ trace w' = trace w ++ select_trace p o) /\
  (forall o, currentFocusedOption w = Some o -> showMenu w = false ->
     w' = toggleMenu p true (selectOption p o w) /\ showMenu w' = true /\
     trace w' = trace w ++ select_trace p o ++ toggle_events p true).
Proof.
  rewrite handle_enter. unfold andThen, skip.
  split; [reflexivity|]. split; [reflexivity|].
  repeat split; intros; repeat match goal with H : _ = _ |- _ => rewrite H end;
    simpl; rewrite ?toggleMenu_eq; simpl; try reflexivity.
  - apply selectOption_trace.
  - rewrite (proj1 (selectOption_trace p o w)), <- app_assoc. reflexivity.
Qed.

(** C5: [Enter] always consumes the event ([preventDefault] and
    [stopPropagation]); it calls [selectOption] exactly when an option is
    focused, and [toggleMenu (!showMenu)] exactly when (nothing is focused
    and the menu is open) or the menu is closed. So [Enter] on an open
    menu with no focus selects nothing and closes it, and [Enter] on an
    open menu with a focused option toggles only through the
    close-on-select policy of [selectOption]. *)
Theorem enter_key p w dp ps :
  let '(ev', w') := handleOnKeyDown p (mkKeyEvent K_Enter dp ps) w in
  defaultPrevented ev' = true /\ propagationStopped ev' = true /\
  (currentFocusedOption w = None -> showMenu w = true ->
     w' = toggleMenu p false w /\ showMenu w' = false /\
     trace w' = trace w ++ toggle_events p false) /\
  (currentFocusedOption w = None -> showMenu w = false ->
     w' = toggleMenu p true w /\ showMenu w' = true /\
     trace w' = trace w ++ toggle_events p true) /\
  (forall o, currentFocusedOption w = Some o -> showMenu w = true ->
     w' = selectOption p o w /\ trace w' = trace w ++ select_trace p o) /\
  (forall o, currentFocusedOption w = Some o -> showMenu w = false ->
     w' = toggleMenu p true (selectOption p o w) /\ showMenu w' = true /\
     trace w' = trace w ++ select_trace p o ++ toggle_events p true).
Proof. exact (enter_cases p w dp ps). Qed.

Example enter_open_unfocused_closes :
  let w := mkWorld true None [] in
  snd (handleOnKeyDown abc (mkKeyEvent K_Enter false false) w) =
  mkWorld false None [EToggleMenu false; EMenuClose].
Proof. reflexivity. Qed.

Example enter_closed_focused_reopens :
  let w := mkWorld false (Some (lopt "B" false)) [] in
  snd (handleOnKeyDown abc (mkKeyEvent K_Enter false false) w) =
  mkWorld true (Some (lopt "B" false))
    [ESelectOption (lopt "B" false); EOptionSelect (lopt "B" false);
     EToggleMenu false; EMenuClose; EToggleMenu true; EMenuOpen].
Proof. reflexivity. Qed.

Example escape_open_refires_open :
  let w := mkWorld true None [] in
  snd (handleOnKeyDown abc (mkKeyEvent K_Escape false false) w) =
  mkWorld true None [EToggleMenu true; EMenuOpen].
Proof. reflexivity. Qed.


(** C9: [Enter] on a closed menu with a focused option acts on the
    render-time snapshot: [selectOption] first (selection callback and,
    when the policy holds, [toggleMenu false] with the close callback),
    then [toggleMenu true] since the snapshot says closed; the menu ends
    open and, with [onMenuOpen] set, the open callback is the last call. *)
Theorem enter_closed_focused p w o dp ps
    (Hclosed : showMenu w = false) (Hfocus : currentFocusedOption w = Some o) :
  let '(_, w') := handleOnKeyDown p (mkKeyEvent K_Enter dp ps) w in
  trace w' = trace w ++ ESelectOption o ::
               (if onOptionSelect p then [EOptionSelect o] else []) ++
               (if closeMenuOnSelect p o
                then EToggleMenu false :: toggle_callbacks p false else []) ++
               EToggleMenu true :: toggle_callbacks p true /\
  showMenu w' = true /\
  (onMenuOpen p = true -> last (trace w') EMenuClose = EMenuOpen).
Proof.
  pose proof (enter_cases p w dp ps) as H.
  destruct (handleOnKeyDown p (mkKeyEvent K_Enter dp ps) w) as [ev' w'].
  destruct H as (_ & _ & _ & _ & _ & H). destruct (H o Hfocus Hclosed) as (Hw & Hs & Ht).
  assert (Htr : trace w' = trace w ++ ESelectOption o ::
               (if onOptionSelect p then [EOptionSelect o] else []) ++
               (if closeMenuOnSelect p o
                then EToggleMenu false :: toggle_callbacks p false else []) ++
               EToggleMenu true :: toggle_callbacks p true).
  { rewrite Ht. unfold select_trace, select_events, toggle_events.
    simpl. rewrite <- !app_assoc. reflexivity. }
  split; [exact Htr|]. split; [exact Hs|].
  intros Ho. rewrite Htr. unfold toggle_callbacks. rewrite Ho.
  rewrite !app_comm_cons, !app_assoc.
  change [EToggleMenu true; EMenuOpen] with ([EToggleMenu true] ++ [EMenuOpen]).
  rewrite app_assoc. apply last_last.
Qed.

Lemma enter_closed_focused_witness :
  let w := mkWorld false (Some (lopt "B" false)) [] in
  showMenu w = false /\ currentFocusedOption w = Some (lopt "B" false) /\
  (let '(_, w') := handleOnKeyDown abc (mkKeyEvent K_Enter false false) w in
   trace w' = trace w ++ ESelectOption (lopt "B" false) ::
                (if onOptionSelect abc then [EOptionSelect (lopt "B" false)] else []) ++
                (if closeMenuOnSelect abc (lopt "B" false)
                 then EToggleMenu false :: toggle_callbacks abc false else []) ++
                EToggleMenu true :: toggle_callbacks abc true /\
   showMenu w' = true /\
   (onMenuOpen abc = true -> last (trace w') EMenuClose = EMenuOpen)).
Proof.
  split; [reflexivity|]. split; [reflexivity|].
  apply (enter_closed_focused abc (mkWorld false (Some (lopt "B" false)) [])
           (lopt "B" false) false false); reflexivity.
Defined.

(** *** The focus invariant *)

(** The focus, when set, is one of the enabled options. *)
Definition focus_enabled (p : Props) (w : World) : Prop :=
  match currentFocusedOption w with
  | Some o => In o (enabledOptions p)
  | None => True
  end.

Lemma enabledOptions_not_disabled p o :
  In o (enabledOptions p) -> isOptionDisabled (Some o) = false.
Proof.
  unfold enabledOptions. rewrite filter_In. intros [_ H].
  destruct (isOptionDisabled (Some o)); [discriminate|reflexivity].
Qed.

Lemma focusOption_focus_enabled p focused d w :
  focus_enabled p w -> focus_enabled p (focusOption p focused d w).
Proof.
  intros H. rewrite focusOption_eq.
  destruct (enabledOptions p) as [|e0 r] eqn:El; [exact H|].
  unfold focus_enabled, setCurrentFocusedOption; cbn [currentFocusedOption].
  rewrite El. apply nth_In.
  pose proof (focus_index_bounds (e0 :: r) focused) as B.
  set (i := focus_index (e0 :: r) focused) in *.
  set (len := Z.of_nat (List.length (e0 :: r))) in *.
  assert (Hlen : 0 < len) by (subst len; simpl; lia).
  assert (Hm : 0 <= (i + 1) mod len < len) by (apply Z.mod_pos_bound; exact Hlen).
  destruct d; [| |destruct (0 <? i) eqn:E|]; subst len; lia.
Qed.

(** The focus is left alone by toggling and by selection. *)
Lemma toggleMenu_focus p b w :
  currentFocusedOption (toggleMenu p b w) = currentFocusedOption w.
Proof. rewrite toggleMenu_eq. reflexivity. Qed.

Lemma handleOnKeyDown_focus_enabled p ev w :
  focus_enabled p w -> focus_enabled p (snd (handleOnKeyDown p ev w)).
Proof.
  intros H. unfold handleOnKeyDown.
  assert (Keep : forall w', currentFocusedOption w' = currentFocusedOption w ->
                            focus_enabled p w')
    by (intros w' E; unfold focus_enabled; rewrite E; exact H).
  repeat match goal with |- context [if String.eqb ?a ?b then _ else _] =>
    destruct (String.eqb a b) end; simpl;
    try (apply focusOption_focus_enabled; exact H); try exact H.
  - destruct (showMenu w); [apply Keep, toggleMenu_focus|exact H].
  - unfold andThen, skip. apply Keep.
    destruct (currentFocusedOption w) as [o|] eqn:Ef;
      destruct (showMenu w); simpl;
      rewrite ?toggleMenu_focus, ?(proj2 (selectOption_trace p o w)); auto.
  - destruct (negb (showMenu w)); [apply Keep, toggleMenu_focus|exact H].
  - destruct (showMenu w); [apply Keep, toggleMenu_focus|exact H].
Qed.

(** C7 (amended): [focusOption], in each of the four directions, and
    every key handled by [handleOnKeyDown] keep the focus among the
    enabled options; [hoverOption] sets the focus without any check, so
    after it the focus is enabled exactly when the hovered option is. *)
Theorem focus_invariant p w :
  (forall d, focus_enabled p w ->
     focus_enabled p (focusOption p (currentFocusedOption w) d w)) /\
  (forall ev, focus_enabled p w -> focus_enabled p (snd (handleOnKeyDown p ev w))) /\
  (forall o, focus_enabled p (hoverOption o w) <-> In o (enabledOptions p)).
Proof.
  split; [intros d; apply focusOption_focus_enabled|].
  split; [intros ev; apply handleOnKeyDown_focus_enabled|].
  intros o. reflexivity.
Qed.

(** C7 (counterexample): hovering a disabled option focuses it, although
    the focus was enabled (empty) before. *)
Lemma hover_disabled_counterexample :
  let p := sample_props [opt "A" false; opt "X" true] in
  focus_enabled p (initWorld p) /\
  isOptionDisabled (Some (lopt "X" true)) = true /\
  ~ focus_enabled p (hoverOption (lopt "X" true) (initWorld p)).
Proof.
  split; [exact I|]. split; [reflexivity|].
  cbv. intros [H|[]]. discriminate.
Qed.

(** *** Focus lookup by value *)

Lemma index_of_value_none v l :
  (forall e, In e l -> value e <> v) -> index_of_value v l = None.
Proof.
  induction l as [|x r IH]; intros H; simpl; [reflexivity|].
  destruct (String.eqb (value x) v) eqn:E.
  - apply String.eqb_eq in E. exfalso. apply (H x); [left; reflexivity|exact E].
  - rewrite IH; [reflexivity|]. intros e He. apply H. right. exact He.
Qed.

(** C10: [focusOption] finds the current focus by [value]: its index is
    that of the first enabled option with the same [value]; focused
    options with equal values navigate alike (so from a later duplicate
    as from the first one), and a focus whose value matches no enabled
    option navigates as no focus at all ([idx = -1]). *)
Theorem focusOption_by_value p d w :
  (forall o i e, nth_error (enabledOptions p) i = Some e -> value e = value o ->
     (forall k e', (k < i)%nat -> nth_error (enabledOptions p) k = Some e' ->
                   value e' <> value o) ->
     focus_index (enabledOptions p) (Some o) = Z.of_nat i) /\
  (forall o1 o2, value o1 = value o2 ->
     focusOption p (Some o1) d w = focusOption p (Some o2) d w) /\
  (forall i j e1 e2, (i < j)%nat ->
     nth_error (enabledOptions p) i = Some e1 ->
     nth_error (enabledOptions p) j = Some e2 -> value e1 = value e2 ->
     focusOption p (Some e2) d w = focusOption p (Some e1) d w) /\
  (forall o, (forall e, In e (enabledOptions p) -> value e <> value o) ->
     focus_index (enabledOptions p) (Some o) = -1 /\
     focusOption p (Some o) d w = focusOption p None d w).
Proof.
  assert (Same : forall o1 o2, value o1 = value o2 ->
            focusOption p (Some o1) d w = focusOption p (Some o2) d w).
  { intros o1 o2 Hv. rewrite !focusOption_eq.
    destruct (enabledOptions p); [reflexivity|].
    unfold focus_index. rewrite Hv. reflexivity. }
  split; [|split; [exact Same|split]].
  - intros o i e Hi Hv Hmin. rewrite focus_index_eq.
    replace (index_of_value (value o) (enabledOptions p)) with (Some i);
      [reflexivity|].
    symmetry. apply index_of_value_spec. split; [exists e; auto|exact Hmin].
  - intros i j e1 e2 _ _ _ Hv. apply Same. symmetry. exact Hv.
  - intros o Hno.
    assert (Hi : focus_index (enabledOptions p) (Some o) = -1)
      by (rewrite focus_index_eq, index_of_value_none; [reflexivity|exact Hno]).
    split; [exact Hi|].
    rewrite !focusOption_eq.
    destruct (enabledOptions p) as [|e0 r]; [reflexivity|].
    cbv zeta. rewrite Hi. reflexivity.
Qed.

End ActionMenuFacts.

(* ================================================================== *)
(** ** Further properties of the resolver and the menu *)

Module PositioningExtras.
Import Positioning PositioningFacts.

Lemma side_of_string_to_string s : side_of_string (side_to_string s) = Some s.
Proof. destruct s; reflexivity. Qed.

(** [GetVisiblePosition] always answers one of the four sides, whatever
    string it is given. *)
Theorem GetVisiblePosition_range win t a p :
  In (GetVisiblePosition win t a p) ["top"; "right"; "bottom"; "left"].
Proof.
  rewrite GetVisiblePosition_eq_spec. unfold resolveSide_spec.
  destruct (side_of_string p) as [s|]; [|simpl; auto].
  destruct (_ && _); destruct s; simpl; auto 6.
Qed.

(** Re-resolving with the side just obtained gives that side again, for
    any recognised preferred side: a flip is never undone by the next
    layout pass with the same measures. *)
Theorem GetVisiblePosition_stable win t a p (Hp : side_of_string p <> None) :
  GetVisiblePosition win t a (GetVisiblePosition win t a p) =
  GetVisiblePosition win t a p.
Proof.
  rewrite !GetVisiblePosition_eq_spec. unfold resolveSide_spec.
  destruct (side_of_string p) as [s|]; [|contradiction].
  set (vp := viewport_of win).
  destruct (fitsb t a vp s) eqn:F1, (fitsb t a vp (opposite s)) eqn:F2; simpl;
    rewrite side_of_string_to_string; rewrite ?F1, ?F2; simpl; try reflexivity.
Qed.

Lemma GetVisiblePosition_stable_witness :
  side_of_string "top" <> None /\
  GetVisiblePosition (mkWindow 800 1200 0 0) (mkRect 0 0 0 0 50 100)
    (mkRect 10 0 50 0 0 40)
    (GetVisiblePosition (mkWindow 800 1200 0 0) (mkRect 0 0 0 0 50 100)
       (mkRect 10 0 50 0 0 40) "top") =
  GetVisiblePosition (mkWindow 800 1200 0 0) (mkRect 0 0 0 0 50 100)
    (mkRect 10 0 50 0 0 40) "top".
Proof.
  split; [discriminate|].
  apply GetVisiblePosition_stable. discriminate.
Defined.

End PositioningExtras.

Module ActionMenuExtras.
Import ActionMenu ActionMenuHandlers ActionMenuFacts.

(** The keys whose event [handleOnKeyDown] consumes. *)
Definition consumingKeys : list string := [K_Enter; K_ArrowUp; K_ArrowDown; K_Home; K_End].

Definition navKeys : list (string * FocusDirection) :=
  [(K_ArrowUp, Up); (K_ArrowDown, Down); (K_Home, First); (K_End, Last)].

(** [handleOnKeyDown] calls [preventDefault] and [stopPropagation]
    exactly for [Enter], [ArrowUp], [ArrowDown], [Home] and [End];
    [Escape], [Tab], [Space] and every other key leave the event as it
    was (so e.g. [Space] keeps its default action on the trigger). *)
Theorem handleOnKeyDown_consumes p w k dp ps :
  fst (handleOnKeyDown p (mkKeyEvent k dp ps) w) =
  if existsb (String.eqb k) consumingKeys then mkKeyEvent k true true
  else mkKeyEvent k dp ps.
Proof.
  unfold handleOnKeyDown, consumingKeys; simpl key.
  repeat match goal with |- context [String.eqb k ?c] =>
    let E := fresh "E" in destruct (String.eqb k c) eqn:E;
    [apply String.eqb_eq in E; subst k; reflexivity|] end.
  cbn [existsb fst].
  repeat match goal with H : String.eqb k _ = false |- _ => rewrite H; clear H end.
  reflexivity.
Qed.

(** A key [handleOnKeyDown] has no case for changes nothing. *)
Theorem handleOnKeyDown_unknown_key p w k dp ps (Hk : ~ In k handledKeys) :
  handleOnKeyDown p (mkKeyEvent k dp ps) w = (mkKeyEvent k dp ps, w).
Proof.
  unfold handleOnKeyDown; simpl key.
  repeat match goal with |- context [String.eqb k ?c] =>
    let E := fresh "E" in destruct (String.eqb k c) eqn:E;
    [apply String.eqb_eq in E; subst k; exfalso; apply Hk; simpl; tauto|] end.
  reflexivity.
Qed.

Lemma handleOnKeyDown_unknown_key_witness :
  ~ In "a" handledKeys /\
  handleOnKeyDown abc (mkKeyEvent "a" false false) (initWorld abc) =
  (mkKeyEvent "a" false false, initWorld abc).
Proof.
  split; [simpl; intuition discriminate|].
  apply handleOnKeyDown_unknown_key. simpl. intuition discriminate.
Defined.

(** [ArrowUp], [ArrowDown], [Home] and [End] move the focus (up, down,
    first, last) whether the menu is open or closed, and touch neither
    [showMenu] nor any callback. *)
Theorem navigation_keys p w dp ps :
  Forall (fun '(k, d) =>
    snd (handleOnKeyDown p (mkKeyEvent k dp ps) w) =
      focusOption p (currentFocusedOption w) d w /\
    showMenu (snd (handleOnKeyDown p (mkKeyEvent k dp ps) w)) = showMenu w /\
    trace (snd (handleOnKeyDown p (mkKeyEvent k dp ps) w)) = trace w) navKeys.
Proof.
  assert (Keep : forall d, showMenu (focusOption p (currentFocusedOption w) d w) = showMenu w /\
                           trace (focusOption p (currentFocusedOption w) d w) = trace w).
  { intros d. rewrite focusOption_eq.
    destruct (enabledOptions p); split; reflexivity. }
  repeat constructor; apply Keep.
Qed.

(** Only the four navigation keys change the focus: [Enter] (selection
    included), [Space], [Escape], [Tab] and unknown keys keep it. *)
Theorem non_navigation_keys_keep_focus p w k dp ps
    (Hk : ~ In k (map fst navKeys)) :
  currentFocusedOption (snd (handleOnKeyDown p (mkKeyEvent k dp ps) w)) =
  currentFocusedOption w.
Proof.
  unfold handleOnKeyDown; simpl key.
  assert (Tg : forall b w', currentFocusedOption (toggleMenu p b w') = currentFocusedOption w')
    by (intros; rewrite toggleMenu_eq; reflexivity).
  assert (Sel : forall o w', currentFocusedOption (selectOption p o w') = currentFocusedOption w')
    by (intros; rewrite selectOption_eq; destruct (closeMenuOnSelect p o); reflexivity).
  repeat match goal with |- context [String.eqb k ?c] =>
    let E := fresh "E" in destruct (String.eqb k c) eqn:E;
    [apply String.eqb_eq in E; subst k;
     try (exfalso; apply Hk; simpl; tauto)|] end;
  simpl; unfold andThen, skip;
  repeat match goal with |- context [if ?b then _ else _] => destruct b end;
  repeat match goal with |- context [match ?o with Some _ => _ | None => _ end] =>
    let Ef := fresh "Ef" in destruct o eqn:Ef end;
  rewrite ?Tg, ?Sel; congruence.
Qed.

Lemma non_navigation_keys_keep_focus_witness :
  let w := mkWorld false (Some (lopt "B" false)) [] in
  ~ In K_Enter (map fst navKeys) /\
  currentFocusedOption (snd (handleOnKeyDown abc (mkKeyEvent K_Enter false false) w)) =
  currentFocusedOption w.
Proof.
  split; [simpl; intuition discriminate|].
  apply non_navigation_keys_keep_focus. simpl. intuition discriminate.
Defined.

(** [Space] opens a closed menu (open callback included) and does nothing
    on an open one: afterwards the menu is open either way. *)
Theorem space_key p w dp ps :
  let w' := snd (handleOnKeyDown p (mkKeyEvent K_Space dp ps) w) in
  showMenu w' = true /\
  currentFocusedOption w' = currentFocusedOption w /\
  trace w' = trace w ++ (if showMenu w then [] else toggle_events p true).
Proof.
  cbv zeta. unfold handleOnKeyDown; simpl.
  destruct (showMenu w) eqn:Hs; simpl.
  - rewrite app_nil_r. auto.
  - rewrite toggleMenu_eq. auto.
Qed.

(** Two clicks on the trigger ([toggleMenu(!showMenu)] each, with a render
    in between) bring the menu back to its state, after a toggle to the
    other state and one back, each with its callback. *)
Theorem trigger_click_twice p w :
  showMenu (onTriggerClick p w) = negb (showMenu w) /\
  showMenu (onTriggerClick p (onTriggerClick p w)) = showMenu w /\
  trace (onTriggerClick p (onTriggerClick p w)) =
  trace w ++ toggle_events p (negb (showMenu w)) ++ toggle_events p (showMenu w).
Proof.
  unfold onTriggerClick. rewrite !toggleMenu_eq. simpl.
  rewrite negb_involutive, <- app_assoc. unfold toggle_events.
  repeat split; reflexivity.
Qed.

(** The value of an optional [disabled] flag, [undefined] being [false]. *)
Definition disabledFlag (d : option bool) : bool :=
  match d with Some b => b | None => false end.

(** The options handed to the list all have [type: 'list'], and the
    enabled subset is the [options] prop filtered, in order, to those
    whose [disabled] is not [true] (an absent [disabled] counts as
    enabled). [isOptionDisabled] is [false] for no option and for an
    option of another type, whatever its flag. *)
Theorem enabledOptions_filter p :
  Forall (fun o => otype o = "list") (actionMenuOptions p) /\
  enabledOptions p =
    map (fun o => mkOption (am_value o) (am_label o) (am_disabled o) "list")
        (filter (fun o => negb (disabledFlag (am_disabled o))) (options p)) /\
  isOptionDisabled None = false /\
  (forall o, otype o <> "list" -> isOptionDisabled (Some o) = false).
Proof.
  split; [|split; [|split]].
  - unfold actionMenuOptions. apply Forall_forall. intros o Ho.
    apply in_map_iff in Ho. destruct Ho as [a [<- _]]. reflexivity.
  - unfold enabledOptions, actionMenuOptions.
    assert (G : forall (F : OptionType -> bool) (g : ActionMenuOption -> OptionType) l,
               filter F (map g l) = map g (filter (fun x => F (g x)) l)).
    { intros F g l. induction l as [|a r IH]; simpl; [reflexivity|].
      destruct (F (g a)); simpl; rewrite IH; reflexivity. }
    rewrite G. f_equal.
  - reflexivity.
  - intros o Ho. unfold isOptionDisabled.
    destruct (String.eqb (otype o) "list") eqn:E; [|reflexivity].
    apply String.eqb_eq in E. contradiction.
Qed.

(** With distinct [value]s among the enabled options, the lookup finds
    a focused enabled option at its own position. *)
Lemma index_of_value_unique l i e :
  NoDup (map value l) -> nth_error l i = Some e ->
  index_of_value (value e) l = Some i.
Proof.
  intros Hnd Hi. apply index_of_value_spec. split; [exists e; auto|].
  intros k e' Hk Hk' Hv.
  assert (Hlt : (k < List.length (map value l))%nat)
    by (rewrite length_map; apply nth_error_Some; congruence).
  assert (k = i); [|lia].
  apply (proj1 (NoDup_nth_error _) Hnd k i Hlt).
  rewrite !nth_error_map, Hi, Hk'. simpl. congruence.
Qed.

Lemma focus_after p w d e0 r (El : enabledOptions p = e0 :: r) :
  currentFocusedOption (focusOption p (currentFocusedOption w) d w) =
  let len := Z.of_nat (List.length (e0 :: r)) in
  let i := focus_index (e0 :: r) (currentFocusedOption w) in
  Some (nth (Z.to_nat (match d with
                       | Up => if 0 <? i then i - 1 else len - 1
                       | Down => (i + 1) mod len
                       | Last => len - 1
                       | First => 0
                       end)) (e0 :: r) e0).
Proof. rewrite focusOption_eq, El. reflexivity. Qed.

Lemma focus_index_at p e i e0 r (El : enabledOptions p = e0 :: r)
    (Hnd : NoDup (map value (enabledOptions p)))
    (Hi : nth_error (e0 :: r) i = Some e) :
  focus_index (e0 :: r) (Some e) = Z.of_nat i.
Proof.
  rewrite focus_index_eq. rewrite El in Hnd.
  rewrite (index_of_value_unique _ _ _ Hnd Hi). reflexivity.
Qed.

(** With distinct option values, [ArrowDown] then [ArrowUp] (a render in
    between) brings the focus back to the enabled option it was on, and
    so does [ArrowUp] then [ArrowDown], wrap-around included. *)
Theorem down_up_roundtrip p w i e
    (Hnd : NoDup (map value (enabledOptions p)))
    (He : nth_error (enabledOptions p) i = Some e)
    (Hf : currentFocusedOption w = Some e) :
  (let w1 := focusOption p (currentFocusedOption w) Down w in
   currentFocusedOption (focusOption p (currentFocusedOption w1) Up w1) = Some e) /\
  (let w2 := focusOption p (currentFocusedOption w) Up w in
   currentFocusedOption (focusOption p (currentFocusedOption w2) Down w2) = Some e).
Proof.
  destruct (enabledOptions p) as [|e0 r] eqn:El; [destruct i; discriminate|].
  pose proof (proj1 (nth_error_Some (e0 :: r) i) ltac:(congruence)) as Hlt.
  set (n := List.length (e0 :: r)) in *.
  assert (Hn : Z.of_nat n = Z.of_nat (List.length (e0 :: r))) by reflexivity.
  assert (Hpick : forall j, (j < n)%nat ->
            nth_error (e0 :: r) j = Some (nth j (e0 :: r) e0))
    by (intros j Hj; apply nth_error_nth'; exact Hj).
  assert (Hidx : forall j, (j < n)%nat ->
            focus_index (e0 :: r) (Some (nth j (e0 :: r) e0)) = Z.of_nat j)
    by (intros j Hj; apply (focus_index_at p _ j e0 r El);
        [rewrite El|apply Hpick]; assumption).
  assert (He' : e = nth i (e0 :: r) e0)
    by (rewrite (Hpick i Hlt) in He; congruence).
  split; cbv zeta.
  - rewrite (focus_after p _ Up e0 r El), (focus_after p w Down e0 r El).
    cbv zeta. rewrite Hf, He', (Hidx i Hlt).
    fold n. destruct (Nat.eq_dec (S i) n) as [Hs|Hs].
    + replace ((Z.of_nat i + 1) mod Z.of_nat n) with 0.
      2:{ rewrite <- Hs, Nat2Z.inj_succ, <- Z.add_1_r, Z.mod_same; lia. }
      change (Z.to_nat 0) with 0%nat.
      rewrite (Hidx 0%nat) by lia. change (0 <? Z.of_nat 0) with false. cbv iota.
      f_equal. f_equal. lia.
    + rewrite Z.mod_small by lia.
      replace (Z.to_nat (Z.of_nat i + 1)) with (S i) by lia.
      rewrite (Hidx (S i)) by lia.
      replace (0 <? Z.of_nat (S i)) with true by (symmetry; apply Z.ltb_lt; lia).
      f_equal. f_equal. lia.
  - rewrite (focus_after p _ Down e0 r El), (focus_after p w Up e0 r El).
    cbv zeta. rewrite Hf, He', (Hidx i Hlt). fold n.
    destruct (0 <? Z.of_nat i) eqn:Ei.
    + replace (Z.to_nat (Z.of_nat i - 1)) with (pred i) by lia.
      rewrite (Hidx (pred i)) by lia.
      rewrite Z.mod_small by lia. f_equal. f_equal. lia.
    + replace (Z.to_nat (Z.of_nat n - 1)) with (pred n) by lia.
      rewrite (Hidx (pred n)) by lia.
      replace (Z.of_nat (pred n) + 1) with (Z.of_nat n) by lia.
      rewrite Z.mod_same by lia. f_equal. f_equal. lia.
Qed.

Lemma down_up_roundtrip_witness :
  let w := mkWorld true (Some (lopt "C" false)) [] in
  NoDup (map value (enabledOptions abc)) /\
  nth_error (enabledOptions abc) 2 = Some (lopt "C" false) /\
  currentFocusedOption w = Some (lopt "C" false) /\
  (let w1 := focusOption abc (currentFocusedOption w) Down w in
   currentFocusedOption (focusOption abc (currentFocusedOption w1) Up w1)
   = Some (lopt "C" false)) /\
  (let w2 := focusOption abc (currentFocusedOption w) Up w in
   currentFocusedOption (focusOption abc (currentFocusedOption w2) Down w2)
   = Some (lopt "C" false)).
Proof.
  assert (Hnd : NoDup (map value (enabledOptions abc))).
  { simpl. repeat constructor; simpl; intuition discriminate. }
  split; [exact Hnd|]. split; [reflexivity|]. split; [reflexivity|].
  apply (down_up_roundtrip abc (mkWorld true (Some (lopt "C" false)) []) 2);
    [exact Hnd|reflexivity|reflexivity].
Defined.

End ActionMenuExtras.

Module TextEditorExtras.
Import TextEditor.

(** The focus state the last focus/blur input leaves. *)
Definition lastFocus (is : list TEInput) (b : bool) : bool :=
  fold_left (fun acc i => match i with IFocus => true | IBlur => false | IRef _ => acc end) is b.

(** The last non-null element handed to [onRef]. *)
Definition lastRef (is : list TEInput) (e : option nat) : option nat :=
  fold_left (fun acc i => match i with IRef (Some x) => Some x | _ => acc end) is e.

(** [hasFocus] follows the last focus/blur event (starting from its
    current value, [autoFocus] on mount), and each event forwards one
    call to [onFocus] / [onBlur] when that prop is set. *)
Theorem runTE_focus p is s :
  hasFocus (fst (runTE p is s)) = lastFocus is (hasFocus s) /\
  snd (runTE p is s) =
  flat_map (fun i => match i with
                     | IFocus => if onFocus p then [CFocus] else []
                     | IBlur => if onBlur p then [CBlur] else []
                     | IRef _ => []
                     end) is.
Proof.
  revert s. induction is as [|i r IH]; intros s; [split; reflexivity|].
  simpl. destruct (stepTE p i s) as [s1 c1] eqn:Hst.
  destruct (runTE p r s1) as [s2 c2] eqn:Hr. simpl.
  specialize (IH s1). rewrite Hr in IH. simpl in IH. destruct IH as [IH1 IH2].
  destruct i as [| |[e|]]; simpl in Hst; injection Hst as <- <-;
    simpl in *; rewrite IH1, IH2; split; reflexivity.
Qed.

(** What [renderTE] renders, child by child. *)
Lemma renderTE_in p s x :
  In x (renderTE p s) <->
  (dflt true (showToolbar p) = true /\ x = RPlugin "ToolbarPlugin") \/
  In x [RPlugin "RichTextPlugin"; RPlugin "HistoryPlugin"] \/
  (dflt false (autoFocus p) = true /\ x = RPlugin "AutoFocusPlugin") \/
  In x [RPlugin "DisablePlugin"; RPlugin "OnChangePlugin"; RPlugin "OnFocusPlugin";
        RPlugin "ListPlugin"; RPlugin "LinkPlugin"] \/
  (floatingAnchorElem s <> None /\ x = RPlugin "FloatingLinkEditorPlugin") \/
  (dflt true (isClearable p) = true /\ x = RPlugin "ClearEditorPlugin") \/
  In x [RPlugin "MarkdownShortcutPlugin"; RPlugin "CodeHighlightPlugin"] \/
  (showFooter p = true /\ In x (footerChildren p)).
Proof.
  unfold renderTE. rewrite !in_app_iff.
  destruct (dflt true (showToolbar p)), (dflt false (autoFocus p)),
    (floatingAnchorElem s), (dflt true (isClearable p)), (showFooter p);
    simpl; intuition (try congruence; try discriminate).
Qed.

(** [onRef] ignores [null]: the floating-link anchor is the last element
    received, is never reset once set, and the floating link editor is
    rendered exactly when an anchor is known. *)
Theorem runTE_anchor p is s :
  floatingAnchorElem (fst (runTE p is s)) = lastRef is (floatingAnchorElem s) /\
  (floatingAnchorElem s <> None -> floatingAnchorElem (fst (runTE p is s)) <> None) /\
  (In (RPlugin "FloatingLinkEditorPlugin") (renderTE p (fst (runTE p is s))) <->
   floatingAnchorElem (fst (runTE p is s)) <> None).
Proof.
  assert (Hl : forall s, floatingAnchorElem (fst (runTE p is s)) =
                         lastRef is (floatingAnchorElem s)).
  { induction is as [|i r IH]; intros s0; [reflexivity|].
    simpl. destruct (stepTE p i s0) as [s1 c1] eqn:Hst.
    destruct (runTE p r s1) as [s2 c2] eqn:Hr. simpl.
    specialize (IH s1). rewrite Hr in IH. simpl in IH. rewrite IH.
    destruct i as [| |[e|]]; simpl in Hst; injection Hst as <- <-; reflexivity. }
  assert (Hkeep : forall l e, lastRef l (Some e) <> None).
  { induction l as [|i r IH]; intros e; simpl; [discriminate|].
    destruct i as [| |[x|]]; apply IH. }
  split; [apply Hl|]. split.
  - rewrite Hl. destruct (floatingAnchorElem s); [intros _; apply Hkeep|congruence].
  - generalize (fst (runTE p is s)) as t. intros t.
    rewrite renderTE_in. split.
    + intros [[_ H]|[H|[[_ H]|[H|[[Hf _]|[[_ H]|[H|[_ H]]]]]]]];
        try exact Hf; try discriminate H; try (simpl in H; intuition discriminate).
      unfold footerChildren in H. rewrite !in_app_iff in H.
      destruct (truthy_b (isPrivate p)), (maxLength p) as [n|], (primaryBtn p);
        try destruct (Z.eqb n 0); simpl in H; intuition discriminate.
    + intros H. do 4 right. left. split; [exact H|reflexivity].
Qed.

(** The footer's length-limit plugins are rendered exactly when [maxLength]
    is a non-zero number; [maxLength = 0] renders a stray text ["0"]
    ([{maxLength && ...}] yields the number) whenever the footer is shown
    for [isPrivate] or [primaryBtn]; the private notice appears exactly
    when [isPrivate] is set. *)
Theorem renderTE_footer p s :
  (In (RPlugin "CharacterLimitPlugin") (renderTE p s) <-> truthy_n (maxLength p) = true) /\
  (In (RPlugin "MaxLengthPlugin") (renderTE p s) <-> truthy_n (maxLength p) = true) /\
  (In (RText "0") (renderTE p s) <->
     maxLength p = Some 0 /\ (truthy_b (isPrivate p) = true \/ primaryBtn p = true)) /\
  (In RPrivateNotice (renderTE p s) <-> truthy_b (isPrivate p) = true).
Proof.
  rewrite !renderTE_in. unfold showFooter, footerChildren, truthy_n.
  destruct (truthy_b (isPrivate p)), (primaryBtn p), (maxLength p) as [n|];
    try (destruct (Z.eqb n 0) eqn:E;
         [apply Z.eqb_eq in E; subst n|apply Z.eqb_neq in E]);
    simpl; rewrite ?in_app_iff; simpl;
    intuition (try congruence; try discriminate).
Qed.

End TextEditorExtras.

Module BrandExtras.
Import Brand.

(** A render of the decorator records its [brand]; a render with the
    same [brand] as the previous one runs no effect, whatever the
    component (so [data-brand] may stay from another component); a render
    with a new [brand] sets [data-brand] to it for a listed component and
    removes it otherwise, whatever it was before. *)
Theorem renderUseBrand_effect d b h :
  prevBrand (renderUseBrand d b h) = Some b /\
  (prevBrand h = Some b -> renderUseBrand d b h = h) /\
  (prevBrand h <> Some b ->
   attr (renderUseBrand d b h) = if existsb (String.eqb d) components then Some b else None).
Proof.
  unfold renderUseBrand.
  destruct (prevBrand h) as [b'|] eqn:Hp.
  - destruct (String.eqb b' b) eqn:E.
    + apply String.eqb_eq in E. subst b'. split; [exact Hp|].
      split; [reflexivity|]. congruence.
    + apply String.eqb_neq in E. split; [reflexivity|]. split; [congruence|].
      intros _. reflexivity.
  - split; [reflexivity|]. split; [discriminate|]. intros _. reflexivity.
Qed.

Example stale_brand :
  attr (renderAll [("Button", "workleap"); ("TextEditor", "workleap")] (mkHook None None))
  = Some "workleap".
Proof. reflexivity. Qed.

End BrandExtras.
